(** * VC-bot dashboard: view state and transaction filtering

    A shallow embedding of the interaction logic of the dashboard
    components (DataTable.tsx, KPICards.tsx, MainCharts.tsx,
    SmartFuelRecommender.tsx) and of the shell around them (App.tsx,
    Sidebar.tsx, Header.tsx, DashboardContent.tsx), and the properties of
    its view state.

    Conventions of the embedding:
    - a React component's [useState] cells become the fields of a record;
      an event handler becomes a function from the state the handler closes
      over to the state after the setter calls it makes;
    - a JavaScript [Set] is a [gset]: the components only ever call [has],
      [add] and [delete] on a fresh copy, so insertion order is unobservable;
    - a JavaScript string is a [string], a [number] holding a measurement is
      a binary64 [float], a [number] used as a set key is an integer [Z];
    - console output and alert boxes are appended to an explicit trace. *)

From Stdlib Require Import Floats.
From stdpp Require Import base option list strings pretty gmap relations.

Set Warnings "-inexact-float".
Open Scope string_scope.

(** ** Effects and click propagation *)

(** What a handler writes to the outside: [console.log(msg)] and
    [alert(msg)]. *)
Inductive Effect :=
| ConsoleLog (msg : string)
| Alert (msg : string).

Section Bubbling.
Context {S : Type}.

(** An [onClick] handler: the state after the setter calls it makes, and
    whether it called [e.stopPropagation()]. *)
Record Handler := {
  run : S → S;
  stopPropagation : bool
}.

(** A click runs the handlers on the path from the clicked element up to
    the root, until one of them stops the propagation. On every path of the
    components below at most one handler that runs calls a setter, so
    threading the state through the path agrees with React's batching. *)
Fixpoint bubble (path : list Handler) (s : S) : S :=
  match path with
  | [] => s
  | h :: ancestors =>
      let s' := run h s in
      if stopPropagation h then s' else bubble ancestors s'
  end.

End Bubbling.
Arguments Handler : clear implicits.

(** The option a controlled [<select value={v}>] shows: the one whose text
    is [v], and the first one when no option matches. *)
Definition displayed (options : list string) (v : string) : string :=
  if decide (v ∈ options) then v else default "" (head options).

(** The values an [onChange] of the select can deliver: the text of any
    option other than the one shown. *)
Definition selectable (options : list string) (v e_target_value : string) : Prop :=
  e_target_value ∈ options ∧ e_target_value ≠ displayed options v.

(** The number of times [i] occurs in a list of ids. *)
Definition occurrences `{EqDecision K} (i : K) (ids : list K) : nat :=
  length (filter (λ j, i = j) ids).

(** JavaScript truthiness of a [string | null]. *)
Definition truthy (v : option string) : bool :=
  match v with
  | Some s => negb (String.eqb s "")
  | None => false
  end.


(** ** DataTable.tsx: the transaction catalog and the table's state *)

Module DataTable.

(** [risk: 'Low' | 'Medium' | 'High'] *)
Inductive Risk := Low | Medium | High.

(** The string a [Risk] value is at run time. *)
Definition risk_string (r : Risk) : string :=
  match r with
  | Low => "Low"
  | Medium => "Medium"
  | High => "High"
  end.

Record TimelineItem := { item_time : string; event : string }.

Record Details := {
  vehicle : string;
  route : string;
  previousTransactions : float;
  timeline : list TimelineItem
}.

Record Transaction := {
  id : string;
  time : string;
  card : string;
  driver : string;
  station : string;
  liters : float;
  price : float;
  deviation : float;
  risk : Risk;
  reviewed : bool;
  details : option Details
}.

Definition mockTransactions : list Transaction :=
  [ {| id := "1";
       time := "14:32";
       card := "****1234";
       driver := "Иванов И.И.";
       station := "АЗС #42";
       liters := 45.2;
       price := 2850;
       deviation := 12.5;
       risk := High;
       reviewed := false;
       details := Some
         {| vehicle := "ГАЗ-3302 (А123БВ)";
            route := "Москва → Санкт-Петербург";
            previousTransactions := 12;
            timeline :=
              [ {| item_time := "14:30"; event := "Transaction initiated" |};
                {| item_time := "14:31"; event := "Payment processed" |};
                {| item_time := "14:32"; event := "Fuel dispensed" |};
                {| item_time := "14:33"; event := "Anomaly detected" |} ] |} |};
    {| id := "2";
       time := "13:15";
       card := "****5678";
       driver := "Петров П.П.";
       station := "АЗС #18";
       liters := 38.7;
       price := 2450;
       deviation := -2.1;
       risk := Low;
       reviewed := true;
       details := None |};
    {| id := "3";
       time := "12:45";
       card := "****9012";
       driver := "Сидоров С.С.";
       station := "АЗС #7";
       liters := 52.3;
       price := 3100;
       deviation := 18.3;
       risk := High;
       reviewed := false;
       details := Some
         {| vehicle := "КАМАЗ-65117 (В456ГД)";
            route := "Казань → Уфа";
            previousTransactions := 8;
            timeline :=
              [ {| item_time := "12:43"; event := "Transaction initiated" |};
                {| item_time := "12:44"; event := "Payment processed" |};
                {| item_time := "12:45"; event := "Fuel dispensed" |};
                {| item_time := "12:46"; event := "Anomaly detected" |} ] |} |} ].

(** The module-level array and the component's [useState] cells, with the
    trace of what the handlers printed. *)
Record Store := {
  transactions : list Transaction;
  expandedRows : gset string;
  dateRange : string;
  region : string;
  riskFilter : string;
  output : list Effect
}.

Definition init : Store :=
  {| transactions := mockTransactions;
     expandedRows := ∅;
     dateRange := "Today";
     region := "All";
     riskFilter := "All";
     output := [] |}.

Definition setExpandedRows (v : gset string) (s : Store) : Store :=
  {| transactions := transactions s; expandedRows := v;
     dateRange := dateRange s; region := region s;
     riskFilter := riskFilter s; output := output s |}.

Definition setDateRange (v : string) (s : Store) : Store :=
  {| transactions := transactions s; expandedRows := expandedRows s;
     dateRange := v; region := region s;
     riskFilter := riskFilter s; output := output s |}.

Definition setRegion (v : string) (s : Store) : Store :=
  {| transactions := transactions s; expandedRows := expandedRows s;
     dateRange := dateRange s; region := v;
     riskFilter := riskFilter s; output := output s |}.

Definition setRiskFilter (v : string) (s : Store) : Store :=
  {| transactions := transactions s; expandedRows := expandedRows s;
     dateRange := dateRange s; region := region s;
     riskFilter := v; output := output s |}.

Definition emit (e : Effect) (s : Store) : Store :=
  {| transactions := transactions s; expandedRows := expandedRows s;
     dateRange := dateRange s; region := region s;
     riskFilter := riskFilter s; output := output s ++ [e] |}.

(** [toggleRow]: copy the set, delete the id when it is there and add it
    otherwise, store the copy. *)
Definition toggleRow (id : string) (s : Store) : Store :=
  let newExpanded := expandedRows s in
  let newExpanded :=
    if decide (id ∈ newExpanded)
    then newExpanded ∖ {[ id ]}
    else {[ id ]} ∪ newExpanded in
  setExpandedRows newExpanded s.

Definition reviewed_message (id : string) : string :=
  "Transaction " ++ id ++ " marked as reviewed. Audit log entry created.".

(** [markAsReviewed]: one console line and one alert box, nothing else. *)
Definition markAsReviewed (id : string) (s : Store) : Store :=
  emit (Alert (reviewed_message id))
    (emit (ConsoleLog (reviewed_message id)) s).

(** The callback handed to [Array.prototype.filter]:
    [if (riskFilter !== 'All' && t.risk !== riskFilter) return false;
     return true]. *)
Definition keep (riskFilter : string) (t : Transaction) : bool :=
  if negb (String.eqb riskFilter "All")
     && negb (String.eqb (risk_string (risk t)) riskFilter)
  then false
  else true.

(** [filteredTransactions = mockTransactions.filter(keep)], as a function
    of the array and of the [riskFilter] cell. *)
Definition filteredTransactions (transactions : list Transaction)
    (riskFilter : string) : list Transaction :=
  List.filter (keep riskFilter) transactions.

(** The rows the table body shows in a given state. *)
Definition rows (s : Store) : list Transaction :=
  filteredTransactions (transactions s) (riskFilter s).

Definition dateRangeOptions : list string :=
  ["Today"; "Last 7 days"; "Last 30 days"; "Custom range"].
Definition regionOptions : list string :=
  ["All Regions"; "Moscow"; "St. Petersburg"; "Kazan"].
Definition riskFilterOptions : list string :=
  ["All Risk Levels"; "Low"; "Medium"; "High"].

(** The user's actions on the rendered table. *)
Inductive Event :=
| ChangeDateRange (e_target_value : string)
| ChangeRegion (e_target_value : string)
| ChangeRiskFilter (e_target_value : string)
| ClickRow (transaction : Transaction)
| ClickMarkAsReviewed (transaction : Transaction).

(** An action is possible when the element it acts on is rendered: a row
    for every filtered transaction, the button on the rows that are not
    reviewed. *)
Definition enabled (s : Store) (ev : Event) : Prop :=
  match ev with
  | ChangeDateRange v => selectable dateRangeOptions (dateRange s) v
  | ChangeRegion v => selectable regionOptions (region s) v
  | ChangeRiskFilter v => selectable riskFilterOptions (riskFilter s) v
  | ClickRow t => t ∈ rows s
  | ClickMarkAsReviewed t => t ∈ rows s ∧ reviewed t = false
  end.

(** [<tr onClick={() => toggleRow(transaction.id)}>] *)
Definition row_onClick (t : Transaction) : Handler Store :=
  {| run := toggleRow (id t); stopPropagation := false |}.

(** [<button onClick={(e) => { e.stopPropagation();
                               markAsReviewed(transaction.id) }}>] *)
Definition button_onClick (t : Transaction) : Handler Store :=
  {| run := markAsReviewed (id t); stopPropagation := true |}.

Definition handle (ev : Event) (s : Store) : Store :=
  match ev with
  | ChangeDateRange v => setDateRange v s
  | ChangeRegion v => setRegion v s
  | ChangeRiskFilter v => setRiskFilter v s
  | ClickRow t => bubble [row_onClick t] s
  | ClickMarkAsReviewed t => bubble [button_onClick t; row_onClick t] s
  end.

Definition step (s s' : Store) : Prop :=
  ∃ ev, enabled s ev ∧ s' = handle ev s.

Definition reachable (s : Store) : Prop := rtc step init s.

(** *** Vocabulary of the table's properties *)

(** [risk == R], for a transaction and the text of a filter. *)
Definition has_risk (R : string) (t : Transaction) : Prop :=
  risk_string (risk t) = R.

#[global] Instance has_risk_dec R t : Decision (has_risk R t).
Proof. unfold has_risk. apply _. Defined.

(** The ids of the catalog. *)
Definition catalog_ids : gset string :=
  list_to_set (id <$> mockTransactions).

(** Every expanded id is the id of a transaction of the array. *)
Definition expanded_within (s : Store) : Prop :=
  ∀ i, i ∈ expandedRows s → ∃ t, t ∈ transactions s ∧ id t = i.

(** The invariant of the table: the array is the catalog the module
    starts with, and the expanded rows are rows of it. *)
Definition table_invariant (s : Store) : Prop :=
  transactions s = mockTransactions ∧ expanded_within s.

End DataTable.

(** ** KPICards.tsx: the KPI cards and the drill-down dialog *)

Module KPICards.

(** The entries of [kpis]; the [icon] element is presentation only. *)
Record KPI := {
  id : string;
  title : string;
  value : string;
  delta : float
}.

Definition kpis : list KPI :=
  [ {| id := "revenue"; title := "Total Revenue";
       value := "₽12.4M"; delta := 12.5 |};
    {| id := "transactions"; title := "Transactions";
       value := "8,234"; delta := -3.2 |};
    {| id := "anomalies"; title := "Anomalies";
       value := "47"; delta := 8.1 |};
    {| id := "active_drivers"; title := "Active Drivers";
       value := "1,234"; delta := 5.7 |} ].

(** [useState<string | null>(null)] *)
Record Store := { selectedKPI : option string }.

Definition init : Store := {| selectedKPI := None |}.

Definition setSelectedKPI (v : option string) (s : Store) : Store :=
  {| selectedKPI := v |}.

(** The dialog as the component renders it: [{selectedKPI && (...)}]. *)
Inductive Dialog :=
| Closed
| Open (id : string).

Definition dialog (s : Store) : Dialog :=
  match selectedKPI s with
  | Some id => if truthy (Some id) then Open id else Closed
  | None => Closed
  end.

(** The clickable elements: the four cards, and inside the dialog the
    backdrop, the white surface and the Close button. *)
Inductive Event :=
| ClickCard (kpi : KPI)
| ClickBackdrop
| ClickSurface
| ClickClose.

(** The cards are always rendered; the backdrop and what it contains only
    while [selectedKPI] is truthy. (The backdrop covers the page while it
    is there; a card is taken as clickable all the same, which only adds
    behaviours.) *)
Definition enabled (s : Store) (ev : Event) : Prop :=
  match ev with
  | ClickCard kpi => kpi ∈ kpis
  | ClickBackdrop | ClickSurface | ClickClose => truthy (selectedKPI s) = true
  end.

(** [onClick={() => setSelectedKPI(kpi.id)}] *)
Definition card_onClick (kpi : KPI) : Handler Store :=
  {| run := setSelectedKPI (Some (id kpi)); stopPropagation := false |}.

(** [onClick={() => setSelectedKPI(null)}] on the backdrop *)
Definition backdrop_onClick : Handler Store :=
  {| run := setSelectedKPI None; stopPropagation := false |}.

(** [onClick={(e) => e.stopPropagation()}] on the surface *)
Definition surface_onClick : Handler Store :=
  {| run := λ s, s; stopPropagation := true |}.

(** [onClick={() => setSelectedKPI(null)}] on the Close button *)
Definition close_onClick : Handler Store :=
  {| run := setSelectedKPI None; stopPropagation := false |}.

(** The handlers from the clicked element up: the button sits in the
    surface, the surface in the backdrop. *)
Definition path (ev : Event) : list (Handler Store) :=
  match ev with
  | ClickCard kpi => [card_onClick kpi]
  | ClickBackdrop => [backdrop_onClick]
  | ClickSurface => [surface_onClick; backdrop_onClick]
  | ClickClose => [close_onClick; surface_onClick; backdrop_onClick]
  end.

Definition handle (ev : Event) (s : Store) : Store := bubble (path ev) s.

Definition step (s s' : Store) : Prop :=
  ∃ ev, enabled s ev ∧ s' = handle ev s.

End KPICards.

(** ** MainCharts.tsx: the chart and its period buttons *)

Module MainCharts.

(** ['Day' | 'Week' | 'Month'] *)
Inductive Period := Day | Week | Month.

Record SeriesPoint := {
  date : string;
  volume : float;
  revenue : float;
  margin : float
}.

Definition chartData : list SeriesPoint :=
  [ {| date := "Mon"; volume := 1200; revenue := 2400; margin := 1800 |};
    {| date := "Tue"; volume := 1900; revenue := 3800; margin := 2900 |};
    {| date := "Wed"; volume := 1500; revenue := 3000; margin := 2200 |};
    {| date := "Thu"; volume := 2100; revenue := 4200; margin := 3200 |};
    {| date := "Fri"; volume := 1800; revenue := 3600; margin := 2700 |};
    {| date := "Sat"; volume := 1600; revenue := 3200; margin := 2400 |};
    {| date := "Sun"; volume := 1400; revenue := 2800; margin := 2100 |} ].

(** The contents of the module-level array [chartData] and the [period]
    cell. *)
Record Store := {
  series : list SeriesPoint;
  period : Period
}.

Definition init : Store := {| series := chartData; period := Week |}.

Definition setPeriod (p : Period) (s : Store) : Store :=
  {| series := series s; period := p |}.

(** The buttons: [(['Day', 'Week', 'Month'] as const).map(...)]. *)
Definition periodButtons : list Period := [Day; Week; Month].

(** What the render hands on: the button drawn as active
    ([period === p]) and [<LineChart data={chartData}>]. *)
Definition activeButton (s : Store) : Period := period s.
Definition LineChart_data (s : Store) : list SeriesPoint := series s.

Inductive Event :=
| ClickPeriod (p : Period).

Definition enabled (s : Store) (ev : Event) : Prop :=
  match ev with
  | ClickPeriod p => p ∈ periodButtons
  end.

(** [onClick={() => setPeriod(p)}] *)
Definition handle (ev : Event) (s : Store) : Store :=
  match ev with
  | ClickPeriod p => setPeriod p s
  end.

End MainCharts.

(** ** SmartFuelRecommender.tsx: the station widget *)

Module SmartFuelRecommender.

Record Station := {
  id : Z;
  name : string;
  address : string;
  price : float;
  savings : float;
  distance : string
}.

Definition topStations : list Station :=
  [ {| id := 1; name := "АЗС #18"; address := "Ленинградское ш., 45 км";
       price := 48.50; savings := 8.2; distance := "2.3 km" |};
    {| id := 2; name := "АЗС #42"; address := "МКАД, 78 км";
       price := 49.20; savings := 6.5; distance := "5.1 km" |};
    {| id := 3; name := "АЗС #7"; address := "Волоколамское ш., 12 км";
       price := 47.80; savings := 9.1; distance := "8.7 km" |} ].

(** [useState<Set<number>>(new Set())] *)
Record Store := { savedOffers : gset Z }.

Definition init : Store := {| savedOffers := ∅ |}.

Definition setSavedOffers (v : gset Z) (s : Store) : Store :=
  {| savedOffers := v |}.

(** [toggleSave]: the same copy, delete-or-add, store as [toggleRow]. *)
Definition toggleSave (id : Z) (s : Store) : Store :=
  let newSaved := savedOffers s in
  let newSaved :=
    if decide (id ∈ newSaved)
    then newSaved ∖ {[ id ]}
    else {[ id ]} ∪ newSaved in
  setSavedOffers newSaved s.

Inductive Event :=
| ClickSave (station : Station).

Definition enabled (s : Store) (ev : Event) : Prop :=
  match ev with
  | ClickSave station => station ∈ topStations
  end.

(** [onClick={() => toggleSave(station.id)}] *)
Definition handle (ev : Event) (s : Store) : Store :=
  match ev with
  | ClickSave station => toggleSave (id station) s
  end.

End SmartFuelRecommender.

(** ** The Overview page: the four components side by side

    [DashboardContent] mounts [KPICards], [MainCharts] and [DataTable] and
    [App] mounts [SmartFuelRecommender] next to them; each keeps its own
    state, and an action on one component runs that component's handler. *)

Module Overview.

Record Store := {
  kpiCards : KPICards.Store;
  mainCharts : MainCharts.Store;
  dataTable : DataTable.Store;
  recommender : SmartFuelRecommender.Store
}.

Definition init : Store :=
  {| kpiCards := KPICards.init;
     mainCharts := MainCharts.init;
     dataTable := DataTable.init;
     recommender := SmartFuelRecommender.init |}.

Inductive Event :=
| OnKPICards (ev : KPICards.Event)
| OnMainCharts (ev : MainCharts.Event)
| OnDataTable (ev : DataTable.Event)
| OnRecommender (ev : SmartFuelRecommender.Event).

Definition enabled (s : Store) (ev : Event) : Prop :=
  match ev with
  | OnKPICards e => KPICards.enabled (kpiCards s) e
  | OnMainCharts e => MainCharts.enabled (mainCharts s) e
  | OnDataTable e => DataTable.enabled (dataTable s) e
  | OnRecommender e => SmartFuelRecommender.enabled (recommender s) e
  end.

Definition handle (ev : Event) (s : Store) : Store :=
  match ev with
  | OnKPICards e =>
      {| kpiCards := KPICards.handle e (kpiCards s);
         mainCharts := mainCharts s; dataTable := dataTable s;
         recommender := recommender s |}
  | OnMainCharts e =>
      {| kpiCards := kpiCards s;
         mainCharts := MainCharts.handle e (mainCharts s);
         dataTable := dataTable s; recommender := recommender s |}
  | OnDataTable e =>
      {| kpiCards := kpiCards s; mainCharts := mainCharts s;
         dataTable := DataTable.handle e (dataTable s);
         recommender := recommender s |}
  | OnRecommender e =>
      {| kpiCards := kpiCards s; mainCharts := mainCharts s;
         dataTable := dataTable s;
         recommender := SmartFuelRecommender.handle e (recommender s) |}
  end.

(** [fires ev s s']: the action [ev] is possible in [s] and leads to [s']. *)
Definition fires (ev : Event) (s s' : Store) : Prop :=
  enabled s ev ∧ s' = handle ev s.

Definition step (s s' : Store) : Prop := ∃ ev, fires ev s s'.

(** The actions that are not a KPI selection and not a way to close the
    dialog: everything on the other components (row and saved-offer
    toggles, period and filter changes) and a click on the dialog's own
    surface. *)
Definition leaves_dialog_alone (ev : Event) : Prop :=
  match ev with
  | OnKPICards KPICards.ClickSurface => True
  | OnKPICards _ => False
  | _ => True
  end.

Definition idle_step (s s' : Store) : Prop :=
  ∃ ev, leaves_dialog_alone ev ∧ fires ev s s'.

End Overview.


(** ** DataTable.tsx: the rows of the table body *)

Module TableBody.
Import DataTable.

(** A [<tr>] of the body: the row of a transaction, with [isExpanded]
    (which picks the chevron), or the details panel under it. *)
Inductive Tr :=
| RowOf (transaction : Transaction) (isExpanded : bool)
| DetailsOf (details : Details).

(** The fragment one transaction maps to: its row, followed by
    [{isExpanded && transaction.details && (<tr>...</tr>)}]. *)
Definition fragment (expandedRows : gset string) (transaction : Transaction)
    : list Tr :=
  let isExpanded := bool_decide (id transaction ∈ expandedRows) in
  RowOf transaction isExpanded ::
  match details transaction with
  | Some d => if isExpanded then [DetailsOf d] else []
  | None => []
  end.

(** [filteredTransactions.map(...)], the fragments laid out in order. *)
Definition tbody (s : Store) : list Tr :=
  flat_map (fragment (expandedRows s)) (rows s).

(** The rows a transaction takes: one, or two when its panel is open. *)
Definition height (expandedRows : gset string) (t : Transaction) : nat :=
  length (fragment expandedRows t).

(** The audit entries [markAsReviewed] prints for a list of ids. *)
Definition audit_entries (ids : list string) : list Effect :=
  flat_map (λ i, [ConsoleLog (reviewed_message i); Alert (reviewed_message i)])
    ids.

End TableBody.

(** ** KPICards.tsx: the heading of the drill-down dialog *)

Module DrillDown.
Import KPICards.

(** [kpis.find(k => k.id === selectedKPI)?.title]; [None] is
    [undefined]. *)
Definition reportTitle (s : Store) : option string :=
  title <$> List.find
    (λ k, match selectedKPI s with
          | Some v => String.eqb (id k) v
          | None => false
          end) kpis.

Definition reachable (s : Store) : Prop := rtc step init s.

End DrillDown.

(** ** MainCharts.tsx and SmartFuelRecommender.tsx: the alert boxes *)

Module Alerts.




End Alerts.

(** ** App.tsx, Sidebar.tsx, Header.tsx and DashboardContent.tsx

    [App] holds [selectedView] and [environment]; the sidebar sets the
    first, the header the second. [DashboardContent] renders the three
    Overview components only for the view "Overview" and a placeholder
    otherwise, so leaving "Overview" unmounts them and their [useState]
    cells start over at the next mount. The recommender is mounted by
    [App] itself and stays. *)

Module App.

(** ['Prod' | 'Pilot'] *)
Inductive Environment := Prod | Pilot.

(** The entries of [menuItems]; the [icon] component is presentation. *)
Record MenuItem := { id : string; label : string }.

Definition menuItems : list MenuItem :=
  [ {| id := "Overview"; label := "Overview" |};
    {| id := "KPIs"; label := "KPIs" |};
    {| id := "Fraud"; label := "Fraud" |};
    {| id := "Recommender"; label := "Recommender" |};
    {| id := "Fleets"; label := "Fleets" |};
    {| id := "Settings"; label := "Settings" |} ].

Record Store := {
  selectedView : string;
  environment : Environment;
  page : Overview.Store
}.

Definition init : Store :=
  {| selectedView := "Overview"; environment := Prod;
     page := Overview.init |}.

(** What [DashboardContent] returns. *)
Inductive Content :=
| Placeholder (heading text : string)
| OverviewPage.

(** [if (selectedView !== 'Overview') return <placeholder>; return <page>] *)
Definition DashboardContent (selectedView : string) : Content :=
  if negb (String.eqb selectedView "Overview")
  then Placeholder selectedView ("Content for " ++ selectedView ++ " view")
  else OverviewPage.

(** The cells of the three Overview components back at their [useState]
    initial values; the module-level arrays, what was printed, and the
    recommender are not the components' state and stay. *)
Definition unmounted (o : Overview.Store) : Overview.Store :=
  {| Overview.kpiCards := KPICards.init;
     Overview.mainCharts :=
       {| MainCharts.series := MainCharts.series (Overview.mainCharts o);
          MainCharts.period := MainCharts.Week |};
     Overview.dataTable :=
       {| DataTable.transactions :=
            DataTable.transactions (Overview.dataTable o);
          DataTable.expandedRows := ∅;
          DataTable.dateRange := "Today";
          DataTable.region := "All";
          DataTable.riskFilter := "All";
          DataTable.output := DataTable.output (Overview.dataTable o) |};
     Overview.recommender := Overview.recommender o |}.

(** [setSelectedView(view)], with the unmount it causes when the new view
    is not "Overview". *)
Definition setSelectedView (view : string) (s : Store) : Store :=
  {| selectedView := view; environment := environment s;
     page := match DashboardContent view with
             | OverviewPage => page s
             | Placeholder _ _ => unmounted (page s)
             end |}.

Definition setEnvironment (env : Environment) (s : Store) : Store :=
  {| selectedView := selectedView s; environment := env; page := page s |}.

(** Sidebar: [isActive = selectedView === item.id]. *)
Definition isActive (s : Store) (item : MenuItem) : bool :=
  String.eqb (selectedView s) (id item).

Inductive Event :=
| ClickMenuItem (item : MenuItem)
| ClickEnvironment (env : Environment)
| OnPage (ev : Overview.Event).

(** The sidebar, the header and the recommender are always there; the
    Overview components only under the view "Overview". *)
Definition enabled (s : Store) (ev : Event) : Prop :=
  match ev with
  | ClickMenuItem item => item ∈ menuItems
  | ClickEnvironment env => True
  | OnPage (Overview.OnRecommender e) =>
      SmartFuelRecommender.enabled (Overview.recommender (page s)) e
  | OnPage e =>
      DashboardContent (selectedView s) = OverviewPage
      ∧ Overview.enabled (page s) e
  end.

(** [onClick={() => setSelectedView(item.id)}],
    [onClick={() => setEnvironment('Prod')}] and
    [onClick={() => setEnvironment('Pilot')}]. *)
Definition handle (ev : Event) (s : Store) : Store :=
  match ev with
  | ClickMenuItem item => setSelectedView (id item) s
  | ClickEnvironment env => setEnvironment env s
  | OnPage e =>
      {| selectedView := selectedView s; environment := environment s;
         page := Overview.handle e (page s) |}
  end.

Definition step (s s' : Store) : Prop :=
  ∃ ev, enabled s ev ∧ s' = handle ev s.

Definition reachable (s : Store) : Prop := rtc step init s.


End App.

(** * Properties *)

(** Closed membership goals over lists of strings are settled by
    evaluating their decision procedure. *)
Ltac by_evaluation := apply (bool_decide_unpack _); vm_compute; exact I.

(** ** The risk filter *)

Section RiskFilter.
Import DataTable.

(** The sample of the specification: the three transactions filtered by
    "High" are transactions 1 and 3, in that order. *)
Example filter_sample_High :
  id <$> filteredTransactions mockTransactions "High" = ["1"; "3"].
Proof. reflexivity. Qed.

Lemma keep_All t : keep "All" t = true.
Proof. reflexivity. Qed.

Lemma keep_spec R t : R ≠ "All" → keep R t = bool_decide (has_risk R t).
Proof.
  intros HR. unfold keep, has_risk.
  destruct (String.eqb_spec R "All") as [->|_]; [done|]. simpl.
  destruct (String.eqb_spec (risk_string (risk t)) R) as [Heq|Hne]; simpl.
  - by rewrite bool_decide_eq_true_2.
  - by rewrite bool_decide_eq_false_2.
Qed.

Lemma filtered_as_filter T R :
  R ≠ "All" → filteredTransactions T R = filter (has_risk R) T.
Proof.
  intros HR. unfold filteredTransactions.
  induction T as [|t T IH]; [done|].
  simpl. rewrite keep_spec by done. rewrite filter_cons, IH.
  by destruct (decide (has_risk R t));
    [rewrite bool_decide_eq_true_2|rewrite bool_decide_eq_false_2].
Qed.

(** Filtering is monotone for the subsequence order. *)
Lemma filter_sublist_mono (P : Transaction → Prop) `{!∀ t, Decision (P t)}
    (L T : list Transaction) :
  L `sublist_of` T → filter P L `sublist_of` filter P T.
Proof.
  induction 1 as [|x L T _ IH|x L T _ IH]; [constructor| |].
  - rewrite !filter_cons. destruct (decide (P x)); [by constructor|done].
  - rewrite filter_cons. destruct (decide (P x)); [by constructor|done].
Qed.

Lemma filter_all (P : Transaction → Prop) `{!∀ t, Decision (P t)}
    (L : list Transaction) :
  Forall P L → filter P L = L.
Proof.
  induction 1 as [|x L Hx _ IH]; [done|].
  by rewrite filter_cons_True, IH.
Qed.

(** C1. For every list of transactions [T] and every risk filter [R]
    other than "All", the filtered list is exactly the subsequence of [T]
    with [risk == R] in the order of [T]: it is [T] with the other
    elements struck out, all its elements have risk [R], and every
    subsequence of [T] whose elements all have risk [R] is a subsequence
    of it. *)
Theorem filter_keeps_exactly_risk (T : list Transaction) (R : string) :
  R ≠ "All" →
  filteredTransactions T R = filter (has_risk R) T
  ∧ filteredTransactions T R `sublist_of` T
  ∧ Forall (has_risk R) (filteredTransactions T R)
  ∧ (∀ L, L `sublist_of` T → Forall (has_risk R) L →
          L `sublist_of` filteredTransactions T R).
Proof.
  intros HR. rewrite filtered_as_filter by done.
  split_and!; [done|apply sublist_filter| |].
  - apply Forall_forall. by intros t [? _]%list_elem_of_filter.
  - intros L HL HP. rewrite <- (filter_all (has_risk R) L HP).
    by apply filter_sublist_mono.
Qed.

(** The sample catalog filtered by "High". *)
Lemma filter_keeps_exactly_risk_witness :
  "High" ≠ "All"
  ∧ id <$> filteredTransactions mockTransactions "High" = ["1"; "3"]
  ∧ filteredTransactions mockTransactions "High" `sublist_of` mockTransactions.
Proof.
  assert (Hne : "High" ≠ "All") by discriminate.
  destruct (filter_keeps_exactly_risk mockTransactions "High" Hne)
    as (_ & Hsub & _).
  split_and!; [done|reflexivity|exact Hsub].
Defined.

(** C5. For every list of transactions [T], filtering with "All" returns
    [T] unchanged. *)
Theorem filter_All_identity (T : list Transaction) :
  filteredTransactions T "All" = T.
Proof.
  unfold filteredTransactions.
  induction T as [|t T IH]; [done|].
  simpl. by rewrite IH.
Qed.

(** No transaction has a risk spelled like the first option of the select. *)
Lemma no_risk_All_Risk_Levels t : ¬ has_risk "All Risk Levels" t.
Proof. unfold has_risk. by destruct (risk t). Qed.

(** C3. The select offers "All Risk Levels" and not "All"; "All" is the
    value of the cell in the initial state only, no change of the select
    brings it back; "All Risk Levels" is reached by picking "High" and then
    the first option again; and with that value the filter keeps the
    transactions whose risk is "All Risk Levels", which is none of them,
    where "All" keeps them all. *)
Theorem All_Risk_Levels_filters_everything_out :
  riskFilter init = "All"
  ∧ "All Risk Levels" ∈ riskFilterOptions
  ∧ ("All" ∉ riskFilterOptions)
  ∧ (∀ s v, enabled s (ChangeRiskFilter v) →
            riskFilter (handle (ChangeRiskFilter v) s) ≠ "All")
  ∧ (∃ s, reachable s ∧ riskFilter s = "All Risk Levels" ∧ rows s = []
          ∧ (rows s ≠ transactions s))
  ∧ (∀ T, filteredTransactions T "All Risk Levels"
          = filter (has_risk "All Risk Levels") T
          ∧ filteredTransactions T "All Risk Levels" = []).
Proof.
  split_and!.
  - done.
  - by_evaluation.
  - by_evaluation.
  - intros s v [Hv _]. simpl. intros ->. revert Hv. by_evaluation.
  - exists (handle (ChangeRiskFilter "All Risk Levels")
              (handle (ChangeRiskFilter "High") init)).
    split_and!; [|done|done|done].
    eapply rtc_l; [|eapply rtc_l; [|apply rtc_refl]].
    + exists (ChangeRiskFilter "High"). split; [|done].
      split; by_evaluation.
    + exists (ChangeRiskFilter "All Risk Levels"). split; [|done].
      split; by_evaluation.
  - intros T. rewrite filtered_as_filter by done. split; [done|].
    induction T as [|t T IH]; [done|].
    rewrite filter_cons_False; [done|apply no_risk_All_Risk_Levels].
Qed.

(** C9. Two states of the table with the same transaction array and the
    same [riskFilter] show the same rows, whatever their [dateRange] and
    [region] (and their expanded rows); changing the date range or the
    region never changes the rows. *)
Theorem rows_ignore_dateRange_and_region (s1 s2 : Store) :
  transactions s1 = transactions s2 →
  riskFilter s1 = riskFilter s2 →
  rows s1 = rows s2
  ∧ (∀ v, rows (handle (ChangeDateRange v) s1) = rows s1)
  ∧ (∀ v, rows (handle (ChangeRegion v) s1) = rows s1).
Proof.
  intros HT HR. split_and!; [|intros v; reflexivity..].
  unfold rows. by rewrite HT, HR.
Qed.

(** The initial state against one with another date range and region. *)
Lemma rows_ignore_dateRange_and_region_witness :
  dateRange (setRegion "Kazan" (setDateRange "Last 7 days" init))
    ≠ dateRange init
  ∧ region (setRegion "Kazan" (setDateRange "Last 7 days" init))
    ≠ region init
  ∧ rows (setRegion "Kazan" (setDateRange "Last 7 days" init)) = rows init.
Proof.
  split_and!; [discriminate|discriminate|].
  apply (rows_ignore_dateRange_and_region
           (setRegion "Kazan" (setDateRange "Last 7 days" init)) init);
    reflexivity.
Defined.

End RiskFilter.

(** ** The two set toggles *)

Section Toggles.
Import SmartFuelRecommender DataTable.

(** The toggle on a set, as both handlers write it. *)
Lemma toggle_present `{Countable K} (i : K) (X : gset K) :
  i ∈ X → {[ i ]} ∪ X ∖ {[ i ]} = X.
Proof.
  intros Hi. apply set_eq. intros j.
  rewrite elem_of_union, elem_of_difference, elem_of_singleton.
  split.
  - by intros [->|[Hj _]].
  - intros Hj. destruct (decide (j = i)); [by left|by right].
Qed.

Lemma toggle_absent `{Countable K} (i : K) (X : gset K) :
  i ∉ X → ({[ i ]} ∪ X) ∖ {[ i ]} = X.
Proof.
  intros Hi. apply set_eq. intros j.
  rewrite elem_of_difference, elem_of_union, elem_of_singleton.
  split.
  - by intros [[->|Hj] Hne].
  - intros Hj. split; [by right|by intros ->].
Qed.

Lemma toggleRow_absent id s :
  id ∉ expandedRows s →
  toggleRow id s = setExpandedRows ({[ id ]} ∪ expandedRows s) s.
Proof. intros Hid. unfold toggleRow. by rewrite decide_False. Qed.

Lemma toggleRow_present id s :
  id ∈ expandedRows s →
  toggleRow id s = setExpandedRows (expandedRows s ∖ {[ id ]}) s.
Proof. intros Hid. unfold toggleRow. by rewrite decide_True. Qed.

Lemma toggleSave_absent id r :
  id ∉ savedOffers r →
  toggleSave id r = setSavedOffers ({[ id ]} ∪ savedOffers r) r.
Proof. intros Hid. unfold toggleSave. by rewrite decide_False. Qed.

Lemma toggleSave_present id r :
  id ∈ savedOffers r →
  toggleSave id r = setSavedOffers (savedOffers r ∖ {[ id ]}) r.
Proof. intros Hid. unfold toggleSave. by rewrite decide_True. Qed.

Lemma absent_after_delete `{Countable K} (i : K) (X : gset K) :
  i ∉ X ∖ {[ i ]}.
Proof. rewrite elem_of_difference, elem_of_singleton. tauto. Qed.

Lemma present_after_add `{Countable K} (i : K) (X : gset K) :
  i ∈ {[ i ]} ∪ X.
Proof. by apply elem_of_union_l, elem_of_singleton. Qed.

Lemma toggleRow_twice id s : toggleRow id (toggleRow id s) = s.
Proof.
  destruct (decide (id ∈ expandedRows s)) as [Hin|Hout].
  - rewrite (toggleRow_present id s Hin).
    rewrite toggleRow_absent by apply absent_after_delete.
    destruct s; unfold setExpandedRows; simpl in *; f_equal.
    by apply toggle_present.
  - rewrite (toggleRow_absent id s Hout).
    rewrite toggleRow_present by apply present_after_add.
    destruct s; unfold setExpandedRows; simpl in *; f_equal.
    by apply toggle_absent.
Qed.

Lemma toggleSave_twice id r : toggleSave id (toggleSave id r) = r.
Proof.
  destruct (decide (id ∈ savedOffers r)) as [Hin|Hout].
  - rewrite (toggleSave_present id r Hin).
    rewrite toggleSave_absent by apply absent_after_delete.
    destruct r; unfold setSavedOffers; simpl in *; f_equal.
    by apply toggle_present.
  - rewrite (toggleSave_absent id r Hout).
    rewrite toggleSave_present by apply present_after_add.
    destruct r; unfold setSavedOffers; simpl in *; f_equal.
    by apply toggle_absent.
Qed.

(** C4 as stated fails: toggling an id that is not in the set changes the
    set, for the expanded rows and for the saved offers alike. *)
Lemma toggle_of_absent_id_changes_the_set :
  ¬ (∀ (s : DataTable.Store) (id : string),
       id ∉ expandedRows s →
       expandedRows (toggleRow id s) = expandedRows s)
  ∧ ¬ (∀ (r : SmartFuelRecommender.Store) (id : Z),
         id ∉ savedOffers r →
         savedOffers (toggleSave id r) = savedOffers r).
Proof.
  split.
  - intros Hnoop.
    assert (Hout : "1" ∉ expandedRows DataTable.init)
      by apply not_elem_of_empty.
    apply Hout. rewrite <- (Hnoop DataTable.init "1" Hout).
    apply present_after_add.
  - intros Hnoop.
    assert (Hout : 1%Z ∉ savedOffers SmartFuelRecommender.init)
      by apply not_elem_of_empty.
    apply Hout. rewrite <- (Hnoop SmartFuelRecommender.init 1%Z Hout).
    apply present_after_add.
Qed.

(** C4, amended. Toggling an id that is not in the set inserts it: the
    set afterwards is the set before plus that id (so it differs from the
    set before), and nothing else in the component's state changes. The
    toggles are total functions: there is no state and no id on which they
    fail. *)
Theorem toggle_of_absent_id_inserts
    (s : DataTable.Store) (r : SmartFuelRecommender.Store)
    (rid : string) (sid : Z) :
  rid ∉ expandedRows s →
  sid ∉ savedOffers r →
  toggleRow rid s = setExpandedRows ({[ rid ]} ∪ expandedRows s) s
  ∧ expandedRows (toggleRow rid s) = {[ rid ]} ∪ expandedRows s
  ∧ expandedRows (toggleRow rid s) ≠ expandedRows s
  ∧ toggleSave sid r = setSavedOffers ({[ sid ]} ∪ savedOffers r) r
  ∧ savedOffers (toggleSave sid r) = {[ sid ]} ∪ savedOffers r
  ∧ savedOffers (toggleSave sid r) ≠ savedOffers r.
Proof.
  intros Hrid Hsid.
  rewrite toggleRow_absent, toggleSave_absent by done. simpl.
  split_and!; try done.
  - intros Heq. apply Hrid. rewrite <- Heq. apply present_after_add.
  - intros Heq. apply Hsid. rewrite <- Heq. apply present_after_add.
Qed.

(** Row "1" and station 1, toggled in the initial states. *)
Lemma toggle_of_absent_id_inserts_witness :
  expandedRows (toggleRow "1" DataTable.init) = {[ "1" ]} ∪ ∅
  ∧ savedOffers (toggleSave 1 SmartFuelRecommender.init) = {[ 1%Z ]} ∪ ∅.
Proof.
  destruct (toggle_of_absent_id_inserts
              DataTable.init SmartFuelRecommender.init "1" 1%Z)
    as (_ & Hrow & _ & _ & Hsave & _).
  - simpl. apply not_elem_of_empty.
  - simpl. apply not_elem_of_empty.
  - split; [exact Hrow|exact Hsave].
Defined.

(** C6. Each toggle is its own inverse: for every state and every id,
    toggling twice with the same id gives back the state, hence the set,
    there was before; and from the empty set of saved offers, toggling
    station 1 twice leaves the set empty. *)
Theorem toggle_twice_restores
    (s : DataTable.Store) (r : SmartFuelRecommender.Store)
    (rid : string) (sid : Z) :
  toggleRow rid (toggleRow rid s) = s
  ∧ expandedRows (toggleRow rid (toggleRow rid s)) = expandedRows s
  ∧ toggleSave sid (toggleSave sid r) = r
  ∧ savedOffers (toggleSave sid (toggleSave sid r)) = savedOffers r
  ∧ savedOffers (toggleSave 1 (toggleSave 1 SmartFuelRecommender.init)) = ∅.
Proof.
  rewrite toggleRow_twice, !toggleSave_twice. done.
Qed.

End Toggles.

(** ** The table's reachable states *)

Section Table.
Import DataTable.

Lemma rows_in_transactions s t : t ∈ rows s → t ∈ transactions s.
Proof.
  unfold rows, filteredTransactions.
  rewrite !list_elem_of_In, filter_In. tauto.
Qed.

Lemma table_invariant_init : table_invariant init.
Proof.
  split; [done|]. intros i Hi. by apply not_elem_of_empty in Hi.
Qed.

Lemma table_invariant_toggleRow s t :
  t ∈ transactions s → table_invariant s → table_invariant (toggleRow (id t) s).
Proof.
  intros Ht [Hcat Hexp]. split; [done|].
  intros i. unfold toggleRow. simpl.
  destruct (decide (id t ∈ expandedRows s)).
  - intros [Hi _]%elem_of_difference. by apply Hexp.
  - intros [->%elem_of_singleton|Hi]%elem_of_union; [by exists t|by apply Hexp].
Qed.

Lemma table_invariant_step s s' :
  table_invariant s → step s s' → table_invariant s'.
Proof.
  intros Hinv (ev & Hen & ->).
  destruct ev as [v|v|v|t|t]; simpl in *; try exact Hinv.
  apply table_invariant_toggleRow; [by apply rows_in_transactions|done].
Qed.

(** C7. The expanded rows start empty, every step of the table keeps
    them inside the catalog, and so in every reachable state each expanded
    id is the id of a transaction of [mockTransactions]. *)
Theorem expandedRows_within_catalog (s : Store) :
  reachable s →
  expandedRows init = ∅
  ∧ (∀ s1 s2, table_invariant s1 → step s1 s2 → table_invariant s2)
  ∧ transactions s = mockTransactions
  ∧ (∀ i, i ∈ expandedRows s → ∃ t, t ∈ mockTransactions ∧ id t = i)
  ∧ expandedRows s ⊆ catalog_ids.
Proof.
  intros Hreach.
  assert (Hinv : table_invariant s).
  { revert s Hreach. apply (rtc_ind_r table_invariant init).
    - apply table_invariant_init.
    - intros s1 s2 _ Hstep IH. by eapply table_invariant_step. }
  destruct Hinv as [Hcat Hexp]. unfold expanded_within in Hexp.
  rewrite Hcat in Hexp.
  split_and!; [done|apply table_invariant_step|done|done|].
  intros i (t & Ht & <-)%Hexp. unfold catalog_ids.
  by apply elem_of_list_to_set, list_elem_of_fmap_2.
Qed.

(** The state after a click on the third row. *)
Lemma expandedRows_within_catalog_witness :
  ∃ t, mockTransactions !! 2%nat = Some t
       ∧ expandedRows (handle (ClickRow t) init) = {[ "3" ]} ∪ ∅
       ∧ expandedRows (handle (ClickRow t) init) ⊆ catalog_ids.
Proof.
  eexists. split; [reflexivity|]. split; [reflexivity|].
  eapply expandedRows_within_catalog.
  apply rtc_once. eexists (ClickRow _). split; [|reflexivity].
  simpl. do 2 apply list_elem_of_further. apply list_elem_of_here.
Defined.

(** C2 as stated fails: after [markAsReviewed "1"], and after the click on
    the button of row 1 that calls it, transaction 1 is still not
    reviewed. *)
Lemma markAsReviewed_does_not_set_reviewed :
  ¬ (∀ (s : Store) (i : string),
       i ∈ id <$> transactions s →
       ∀ t, t ∈ transactions (markAsReviewed i s) → id t = i →
            reviewed t = true)
  ∧ ∃ t, mockTransactions !! 0%nat = Some t
         ∧ enabled init (ClickMarkAsReviewed t)
         ∧ transactions (handle (ClickMarkAsReviewed t) init) !! 0%nat = Some t
         ∧ id t = "1" ∧ reviewed t = false.
Proof.
  split.
  - intros Hset.
    assert (Hin : "1" ∈ id <$> transactions init) by apply list_elem_of_here.
    specialize (Hset init "1" Hin _ (list_elem_of_here _ _) eq_refl).
    discriminate Hset.
  - eexists. split; [reflexivity|].
    split_and!; [split; [apply list_elem_of_here|reflexivity]|reflexivity..].
Qed.

(** C2, amended. For every id and every state, [markAsReviewed] changes
    no transaction (no [reviewed] field) and no cell of the table; it
    appends one console line and one alert box with the audit message for
    that id. Repeated calls change nothing either and report each time.
    The click on the button runs [markAsReviewed] only (the row is not
    toggled), and the button is still there afterwards. *)
Theorem markAsReviewed_only_reports (i : string) (s : Store) (n : nat) :
  transactions (markAsReviewed i s) = transactions s
  ∧ expandedRows (markAsReviewed i s) = expandedRows s
  ∧ dateRange (markAsReviewed i s) = dateRange s
  ∧ region (markAsReviewed i s) = region s
  ∧ riskFilter (markAsReviewed i s) = riskFilter s
  ∧ output (markAsReviewed i s)
    = (output s
       ++ [ConsoleLog (reviewed_message i); Alert (reviewed_message i)])%list
  ∧ transactions (Nat.iter n (markAsReviewed i) s) = transactions s
  ∧ length (output (Nat.iter n (markAsReviewed i) s))
    = (length (output s) + 2 * n)%nat
  ∧ (∀ t, handle (ClickMarkAsReviewed t) s = markAsReviewed (id t) s
          ∧ (enabled s (ClickMarkAsReviewed t) →
             enabled (handle (ClickMarkAsReviewed t) s)
               (ClickMarkAsReviewed t))).
Proof.
  split_and!; try reflexivity.
  - simpl. by rewrite <- app_assoc.
  - induction n as [|n IH]; [done|]. simpl. exact IH.
  - induction n as [|n IH]; simpl; [lia|].
    rewrite !length_app. simpl. lia.
  - intros t. split; [reflexivity|]. intros Hen. exact Hen.
Qed.

End Table.

(** ** The drill-down dialog *)

Section Dialog.
Import KPICards.

Lemma kpis_truthy kpi : kpi ∈ kpis → truthy (Some (id kpi)) = true.
Proof.
  unfold kpis. rewrite !elem_of_cons, elem_of_nil.
  intros [->|[->|[->|[->|[]]]]]; reflexivity.
Qed.

Lemma dialog_Open_truthy s i :
  dialog s = Open i → selectedKPI s = Some i ∧ truthy (selectedKPI s) = true.
Proof.
  unfold dialog. destruct (selectedKPI s) as [j|]; [|done].
  destruct (truthy (Some j)) eqn:Hj; [|done].
  by intros [= ->].
Qed.

(** An action that leaves the dialog alone does not touch the state of
    the KPI cards. *)
Lemma idle_step_kpiCards o o' :
  Overview.idle_step o o' → Overview.kpiCards o' = Overview.kpiCards o.
Proof.
  intros (ev & Hidle & _ & ->).
  destruct ev as [[kpi| | |]|e|e|e]; simpl in Hidle; try done.
Qed.

Lemma idle_steps_kpiCards o o' :
  rtc Overview.idle_step o o' → Overview.kpiCards o' = Overview.kpiCards o.
Proof.
  induction 1 as [o|o1 o2 o3 Hstep _ IH]; [done|].
  rewrite IH. by apply idle_step_kpiCards.
Qed.

(** C8. The dialog has the states [Closed] and [Open id] and starts
    [Closed]. Selecting a KPI card is possible when it is closed and opens
    it on that card's id; while it is open on some id, the Close button and
    a click on the backdrop outside the surface are possible and each
    closes it, and a click on the surface changes nothing. Opening it on
    "revenue", then any number of actions that leave the dialog alone (row
    toggles, saved-offer toggles, period and filter changes, clicks on the
    surface), then Close: the dialog is still open on "revenue" before the
    Close, the Close is possible, and it ends [Closed]. *)
Theorem drill_down_dialog_lifecycle (s : Store) (kpi : KPI) :
  kpi ∈ kpis →
  dialog init = Closed
  ∧ (dialog s = Closed →
     enabled s (ClickCard kpi)
     ∧ dialog (handle (ClickCard kpi) s) = Open (id kpi))
  ∧ (∀ i, dialog s = Open i →
          enabled s ClickClose ∧ dialog (handle ClickClose s) = Closed
          ∧ enabled s ClickBackdrop ∧ dialog (handle ClickBackdrop s) = Closed
          ∧ enabled s ClickSurface ∧ handle ClickSurface s = s)
  ∧ (∀ o0 o1 o2,
       id kpi = "revenue" →
       Overview.fires (Overview.OnKPICards (ClickCard kpi)) o0 o1 →
       rtc Overview.idle_step o1 o2 →
       dialog (Overview.kpiCards o2) = Open "revenue"
       ∧ Overview.enabled o2 (Overview.OnKPICards ClickClose)
       ∧ dialog (Overview.kpiCards
                   (Overview.handle (Overview.OnKPICards ClickClose) o2))
         = Closed).
Proof.
  intros Hkpi. pose proof (kpis_truthy kpi Hkpi) as Htruthy.
  assert (Hopen : ∀ s0, dialog (handle (ClickCard kpi) s0) = Open (id kpi)).
  { intros s0.
    change (handle (ClickCard kpi) s0) with {| selectedKPI := Some (id kpi) |}.
    unfold dialog. cbn [selectedKPI]. by rewrite Htruthy. }
  split_and!.
  - reflexivity.
  - intros _. split; [exact Hkpi|apply Hopen].
  - intros i [_ Hi]%dialog_Open_truthy.
    destruct s as [sel]. simpl in Hi. by split_and!.
  - intros o0 o1 o2 Hrev [_ ->] Hidle.
    apply idle_steps_kpiCards in Hidle. simpl in Hidle.
    pose proof (Hopen (Overview.kpiCards o0)) as Ho. rewrite Hrev in Ho.
    rewrite <- Hidle in Ho. split; [exact Ho|].
    apply dialog_Open_truthy in Ho as [_ Ho]. by split.
Qed.

(** The first card: open, click on the surface, Close. *)
Lemma drill_down_dialog_lifecycle_witness :
  ∃ kpi, kpis !! 0%nat = Some kpi
    ∧ dialog (handle (ClickCard kpi) init) = Open "revenue"
    ∧ dialog (handle ClickClose
                (handle ClickSurface (handle (ClickCard kpi) init)))
      = Closed.
Proof.
  eexists. split; [reflexivity|].
  edestruct (drill_down_dialog_lifecycle init) as (_ & Hopen & _).
  { apply list_elem_of_here. }
  destruct (Hopen eq_refl) as [_ Hrevenue].
  split; [exact Hrevenue|reflexivity].
Defined.

End Dialog.

(** ** The chart's period buttons *)

Section Chart.
Import MainCharts.

(** C10. The period is one of Day, Week and Month, the three buttons.
    Choosing a period sets the [period] cell, and with it the button drawn
    as active, and nothing else: the contents of [chartData] and the data
    handed to the chart are the same before and after, and after any
    sequence of period choices the chart still shows the seven points of
    [chartData]. *)
Theorem setPeriod_is_cosmetic (p : Period) (s : Store) :
  p ∈ periodButtons
  ∧ handle (ClickPeriod p) s = setPeriod p s
  ∧ period (setPeriod p s) = p
  ∧ activeButton (setPeriod p s) = p
  ∧ series (setPeriod p s) = series s
  ∧ LineChart_data (setPeriod p s) = LineChart_data s
  ∧ (∀ ps : list Period, LineChart_data (foldr setPeriod init ps) = chartData).
Proof.
  split_and!; try reflexivity.
  - unfold periodButtons. rewrite !elem_of_cons. destruct p; auto.
  - intros ps. induction ps as [|q ps IH]; [reflexivity|exact IH].
Qed.

End Chart.

(** * Further properties of the components *)

(** ** More on the risk filter *)

Section RiskFilterAlgebra.
Import DataTable.

Lemma filtered_cons t T R :
  filteredTransactions (t :: T) R
  = if keep R t then t :: filteredTransactions T R
    else filteredTransactions T R.
Proof. reflexivity. Qed.

Lemma keep_risk_name t : keep (risk_string (risk t)) t = true.
Proof. unfold keep. rewrite String.eqb_refl. by rewrite andb_false_r. Qed.

Lemma keep_true_inv R t :
  keep R t = true → R = "All" ∨ R = risk_string (risk t).
Proof.
  unfold keep.
  destruct (String.eqb_spec R "All") as [->|_]; [by left|].
  destruct (String.eqb_spec (risk_string (risk t)) R) as [<-|_]; [by right|].
  done.
Qed.

(** X1. The three risk names split every list of transactions: each
    transaction is shown under exactly one of "Low", "Medium" and "High",
    so the three filtered lists together are a rearrangement of the list
    and their lengths add up to its length. *)
Theorem risk_names_partition (T : list Transaction) :
  filteredTransactions T "Low" ++ filteredTransactions T "Medium"
    ++ filteredTransactions T "High" ≡ₚ T
  ∧ (length (filteredTransactions T "Low")
     + length (filteredTransactions T "Medium")
     + length (filteredTransactions T "High") = length T)%nat
  ∧ (∀ t, t ∈ T →
       ∃ R, R ∈ ["Low"; "Medium"; "High"]
            ∧ t ∈ filteredTransactions T R
            ∧ ∀ R', R' ≠ "All" → t ∈ filteredTransactions T R' → R' = R).
Proof.
  assert (Hperm : filteredTransactions T "Low"
                    ++ filteredTransactions T "Medium"
                    ++ filteredTransactions T "High" ≡ₚ T).
  { induction T as [|t T IH]; [done|].
    rewrite !filtered_cons. unfold keep.
    destruct (risk t); simpl.
    - by rewrite IH.
    - rewrite <- Permutation_middle. by rewrite IH.
    - rewrite app_assoc, <- Permutation_middle, <- app_assoc. by rewrite IH. }
  split_and!; [done| |].
  - rewrite <- (Permutation_length Hperm), !length_app. lia.
  - intros t Ht. exists (risk_string (risk t)). split_and!.
    + destruct (risk t); by_evaluation.
    + apply list_elem_of_In, filter_In. split; [by apply list_elem_of_In|].
      apply keep_risk_name.
    + intros R' HR' [_ Hk]%list_elem_of_In%filter_In.
      by destruct (keep_true_inv R' t Hk).
Qed.

(** X2. Filtering twice with the same text is filtering once, and the order in
    which two filters are applied does not matter. *)
Theorem filter_idempotent_and_commutes (T : list Transaction) (R1 R2 : string) :
  filteredTransactions (filteredTransactions T R1) R1
  = filteredTransactions T R1
  ∧ filteredTransactions (filteredTransactions T R1) R2
    = filteredTransactions (filteredTransactions T R2) R1.
Proof.
  split.
  - induction T as [|t T IH]; [done|].
    rewrite filtered_cons. destruct (keep R1 t) eqn:Hk; [|done].
    by rewrite filtered_cons, Hk, IH.
  - induction T as [|t T IH]; [done|].
    rewrite !(filtered_cons t T).
    destruct (keep R1 t) eqn:H1, (keep R2 t) eqn:H2;
      rewrite ?filtered_cons, ?H1, ?H2, IH; done.
Qed.

(** X3. Two different filters, neither of them "All", leave nothing when one
    is applied to the result of the other. *)
Theorem different_filters_exclude (T : list Transaction) (R1 R2 : string) :
  R1 ≠ "All" → R2 ≠ "All" → R1 ≠ R2 →
  filteredTransactions (filteredTransactions T R1) R2 = [].
Proof.
  intros H1 H2 Hne. induction T as [|t T IH]; [done|].
  rewrite filtered_cons. destruct (keep R1 t) eqn:Hk1; [|done].
  rewrite filtered_cons, IH. destruct (keep R2 t) eqn:Hk2; [|done].
  destruct (keep_true_inv _ _ Hk1) as [? | ->]; [done|].
  by destruct (keep_true_inv _ _ Hk2).
Qed.

(** The sample catalog: "Low" applied to the "High" rows. *)
Lemma different_filters_exclude_witness :
  filteredTransactions mockTransactions "High" ≠ []
  ∧ filteredTransactions (filteredTransactions mockTransactions "High") "Low"
    = [].
Proof.
  split; [discriminate|].
  apply different_filters_exclude; discriminate.
Defined.

(** X4. A filter text that is neither "All" nor the exact name of a risk level
    (another spelling, another case, the empty text) hides every
    transaction of every list. *)
Theorem unknown_filter_hides_all (T : list Transaction) (R : string) :
  R ∉ ["All"; "Low"; "Medium"; "High"] →
  filteredTransactions T R = [].
Proof.
  intros HR. induction T as [|t T IH]; [done|].
  rewrite filtered_cons, IH. destruct (keep R t) eqn:Hk; [|done].
  exfalso. apply HR.
  destruct (keep_true_inv _ _ Hk) as [HR'|HR']; rewrite HR';
    [by_evaluation|].
  destruct (risk t); by_evaluation.
Qed.

(** The sample catalog under the lower-case text "high". *)
Lemma unknown_filter_hides_all_witness :
  filteredTransactions mockTransactions "high" = []
  ∧ length (filteredTransactions mockTransactions "High") = 2%nat.
Proof.
  split; [|reflexivity].
  apply unknown_filter_hides_all. by_evaluation.
Defined.

End RiskFilterAlgebra.

(** ** More on the table's reachable states *)

Section TableStates.
Import DataTable TableBody.

Lemma reachable_table_invariant s : reachable s → table_invariant s.
Proof.
  revert s. apply (rtc_ind_r table_invariant init).
  - apply table_invariant_init.
  - intros s1 s2 _ Hstep IH. by eapply table_invariant_step.
Qed.







Lemma audit_entries_app ids1 ids2 :
  audit_entries (ids1 ++ ids2)
  = (audit_entries ids1 ++ audit_entries ids2)%list.
Proof. apply flat_map_app. Qed.

(** What one step adds to the trace: nothing, or the two entries for a
    shown transaction that is not reviewed. *)
Lemma step_output s s' :
  step s s' →
  output s' = output s
  ∨ ∃ t, t ∈ rows s ∧ reviewed t = false
         ∧ output s' = (output s ++ audit_entries [id t])%list.
Proof.
  intros (ev & Hen & ->). destruct ev as [v|v|v|t|t]; simpl; auto.
  right. destruct Hen as [Ht Hrev]. exists t. split_and!; [done..|].
  by rewrite <- app_assoc.
Qed.

(** X6. The audit trace is append-only and made of pairs: between two states
    the earlier trace is a prefix of the later one, and in every reachable
    state the trace is, for some list of ids, a console line followed by an
    alert box for each id in turn, every id being the id of a transaction
    of the catalog that is not reviewed. *)
Theorem audit_trace_append_only (s s' : Store) :
  reachable s → rtc step s s' →
  output s `prefix_of` output s'
  ∧ ∃ ids, output s = audit_entries ids
           ∧ Forall (λ i, ∃ t, t ∈ mockTransactions ∧ id t = i
                               ∧ reviewed t = false) ids.
Proof.
  intros Hs Hss'. split.
  - clear Hs. induction Hss' as [s|s1 s2 s3 Hstep _ IH]; [done|].
    etrans; [|exact IH].
    destruct (step_output _ _ Hstep) as [->|(t & _ & _ & ->)];
      [done|by apply prefix_app_r].
  - clear s' Hss'. revert s Hs.
    apply (rtc_ind_r
             (λ s, ∃ ids, output s = audit_entries ids
                          ∧ Forall (λ i, ∃ t, t ∈ mockTransactions ∧ id t = i
                                              ∧ reviewed t = false) ids)
             init).
    + by exists [].
    + intros s1 s2 Hs1 Hstep IH. destruct IH as (ids & Hids & Hall).
      destruct (step_output _ _ Hstep) as [->|(t & Ht & Hrev & ->)];
        [by exists ids|].
      exists (ids ++ [id t])%list. rewrite audit_entries_app, Hids. split; [done|].
      apply Forall_app. split; [done|]. apply Forall_singleton.
      exists t. split_and!; [|done..].
      apply rows_in_transactions in Ht.
      by destruct (reachable_table_invariant s1 Hs1) as [<- _].
Qed.

(** Two clicks on the button of the first row. *)
Lemma audit_trace_append_only_witness :
  ∃ t, mockTransactions !! 0%nat = Some t
    ∧ output (markAsReviewed (id t) init)
      `prefix_of` output (markAsReviewed (id t) (markAsReviewed (id t) init))
    ∧ output (markAsReviewed (id t) init) = audit_entries ["1"].
Proof.
  eexists. split; [reflexivity|]. split; [|reflexivity].
  eapply audit_trace_append_only.
  - apply rtc_once. eexists (ClickMarkAsReviewed _). split; [|reflexivity].
    split; [apply list_elem_of_here|reflexivity].
  - apply rtc_once. eexists (ClickMarkAsReviewed _). split; [|reflexivity].
    split; [apply list_elem_of_here|reflexivity].
Defined.

End TableStates.

(** ** Sequences of toggles *)

Section ToggleSequences.
Import SmartFuelRecommender DataTable.

(** Membership after one toggle of a set, as both handlers write it. *)
Lemma toggled_membership `{Countable K} (i j : K) (X : gset K) :
  bool_decide
    (i ∈ if decide (j ∈ X) then X ∖ {[ j ]} else {[ j ]} ∪ X)
  = xorb (bool_decide (i ∈ X)) (bool_decide (i = j)).
Proof.
  destruct (decide (j ∈ X)) as [Hj|Hj], (decide (i = j)) as [->|Hij].
  - rewrite (bool_decide_eq_true_2 (j ∈ X)), (bool_decide_eq_true_2 (j = j))
      by done.
    apply bool_decide_eq_false_2, absent_after_delete.
  - rewrite (bool_decide_eq_false_2 (i = j)), xorb_false_r by done.
    apply bool_decide_ext. rewrite elem_of_difference, elem_of_singleton.
    tauto.
  - rewrite (bool_decide_eq_false_2 (j ∈ X)), (bool_decide_eq_true_2 (j = j))
      by done.
    apply bool_decide_eq_true_2, present_after_add.
  - rewrite (bool_decide_eq_false_2 (i = j)), xorb_false_r by done.
    apply bool_decide_ext. rewrite elem_of_union, elem_of_singleton.
    tauto.
Qed.

Lemma toggleRow_membership i j s :
  bool_decide (i ∈ expandedRows (toggleRow j s))
  = xorb (bool_decide (i ∈ expandedRows s)) (bool_decide (i = j)).
Proof. apply toggled_membership. Qed.

Lemma toggleSave_membership i j r :
  bool_decide (i ∈ savedOffers (toggleSave j r))
  = xorb (bool_decide (i ∈ savedOffers r)) (bool_decide (i = j)).
Proof. apply toggled_membership. Qed.

Lemma odd_occurrences_cons `{EqDecision K} (i j : K) (ids : list K) :
  Nat.odd (occurrences i (j :: ids))
  = xorb (Nat.odd (occurrences i ids)) (bool_decide (i = j)).
Proof.
  unfold occurrences. rewrite filter_cons.
  destruct (decide (i = j)) as [Hij|Hij].
  - rewrite (bool_decide_eq_true_2 _ Hij), xorb_true_r.
    cbn [length]. by rewrite Nat.odd_succ, <- Nat.negb_odd.
  - by rewrite (bool_decide_eq_false_2 _ Hij), xorb_false_r.
Qed.

(** X7. After any sequence of toggles, a row is expanded exactly when it was
    expanded before and toggled an even number of times, or collapsed
    before and toggled an odd number of times; the same holds for the saved
    offers of the recommender. In particular only the parity of the clicks
    on a row counts, not their order among the clicks on other rows. *)
Theorem toggles_count_parity
    (s : DataTable.Store) (r : SmartFuelRecommender.Store)
    (rids : list string) (sids : list Z) (i : string) (j : Z) :
  bool_decide (i ∈ expandedRows (foldr toggleRow s rids))
  = xorb (bool_decide (i ∈ expandedRows s)) (Nat.odd (occurrences i rids))
  ∧ bool_decide (j ∈ savedOffers (foldr toggleSave r sids))
    = xorb (bool_decide (j ∈ savedOffers r)) (Nat.odd (occurrences j sids)).
Proof.
  split.
  - induction rids as [|k rids IH]; [by rewrite xorb_false_r|].
    cbn [foldr]. rewrite toggleRow_membership, IH, odd_occurrences_cons.
    by rewrite xorb_assoc.
  - induction sids as [|k sids IH]; [by rewrite xorb_false_r|].
    cbn [foldr]. rewrite toggleSave_membership, IH, odd_occurrences_cons.
    by rewrite xorb_assoc.
Qed.

Lemma gset_eq_bool `{Countable K} (X Y : gset K) :
  (∀ i, bool_decide (i ∈ X) = bool_decide (i ∈ Y)) → X = Y.
Proof.
  intros HXY. apply set_eq. intros i.
  by rewrite <- (bool_decide_eq_true (i ∈ X)), HXY, bool_decide_eq_true.
Qed.

(** X8. Two toggles commute: toggling [a] then [b] gives the same state as
    toggling [b] then [a], for the expanded rows and for the saved
    offers. *)
Theorem toggles_commute
    (s : DataTable.Store) (r : SmartFuelRecommender.Store)
    (a b : string) (c d : Z) :
  toggleRow a (toggleRow b s) = toggleRow b (toggleRow a s)
  ∧ toggleSave c (toggleSave d r) = toggleSave d (toggleSave c r).
Proof.
  split.
  - assert (Hset : expandedRows (toggleRow a (toggleRow b s))
                   = expandedRows (toggleRow b (toggleRow a s))).
    { apply gset_eq_bool. intros i. rewrite !toggleRow_membership.
      rewrite !xorb_assoc. f_equal. apply xorb_comm. }
    destruct s. unfold toggleRow in *. simpl in *. unfold setExpandedRows.
    simpl. by f_equal.
  - assert (Hset : savedOffers (toggleSave c (toggleSave d r))
                   = savedOffers (toggleSave d (toggleSave c r))).
    { apply gset_eq_bool. intros i. rewrite !toggleSave_membership.
      rewrite !xorb_assoc. f_equal. apply xorb_comm. }
    destruct r. unfold toggleSave in *. simpl in *. unfold setSavedOffers.
    simpl. by f_equal.
Qed.

End ToggleSequences.

(** ** The rows of the table body *)

Section Body.
Import DataTable TableBody.

Lemma filtered_ids_NoDup T R :
  NoDup (id <$> T) → NoDup (id <$> filteredTransactions T R).
Proof.
  induction T as [|t T IH]; [done|].
  rewrite fmap_cons, NoDup_cons. intros [Ht HT].
  rewrite filtered_cons. destruct (keep R t); [|by apply IH].
  rewrite fmap_cons, NoDup_cons. split; [|by apply IH].
  intros (t' & Hid & Hin)%list_elem_of_fmap. apply Ht.
  apply list_elem_of_fmap. exists t'. split; [done|].
  apply list_elem_of_In in Hin. apply filter_In in Hin as [Hin _].
  by apply list_elem_of_In.
Qed.

Lemma fragment_other E i t :
  id t ≠ i →
  fragment (if decide (i ∈ E) then E ∖ {[ i ]} else {[ i ]} ∪ E) t
  = fragment E t.
Proof.
  intros Hne. unfold fragment.
  rewrite toggled_membership, (bool_decide_eq_false_2 (id t = i)) by done.
  by rewrite xorb_false_r.
Qed.

Lemma fragments_other E i L :
  i ∉ id <$> L →
  flat_map (fragment (if decide (i ∈ E) then E ∖ {[ i ]} else {[ i ]} ∪ E)) L
  = flat_map (fragment E) L.
Proof.
  induction L as [|x L IH]; [done|].
  rewrite fmap_cons, not_elem_of_cons. intros [Hx HL].
  cbn [flat_map]. rewrite IH by done. by rewrite fragment_other.
Qed.

Lemma fragments_toggled E t L :
  NoDup (id <$> L) → t ∈ L →
  (length (flat_map (fragment (if decide (id t ∈ E) then E ∖ {[ id t ]}
                               else {[ id t ]} ∪ E)) L)
   + height E t
   = length (flat_map (fragment E) L)
     + height (if decide (id t ∈ E) then E ∖ {[ id t ]}
               else {[ id t ]} ∪ E) t)%nat.
Proof.
  induction L as [|x L IH]; [by intros _ ?%elem_of_nil|].
  rewrite fmap_cons, NoDup_cons. intros [Hx HL] Ht.
  cbn [flat_map]. rewrite !length_app. fold (height E x).
  apply elem_of_cons in Ht as [->|Ht].
  - rewrite fragments_other by done. unfold height. lia.
  - rewrite fragment_other.
    + specialize (IH HL Ht). fold (height E x). lia.
    + intros Heq. apply Hx. rewrite Heq. by apply list_elem_of_fmap_2.
Qed.

(** X9. When the ids of the transactions are distinct, a click on a shown row
    changes the number of rows of the table body by exactly one if the
    transaction has details (one more when it was collapsed, one fewer
    when it was expanded) and not at all if it has none; the transactions
    shown stay the same. *)
Theorem row_click_adds_or_removes_one_row (s : Store) (t : Transaction) :
  NoDup (id <$> transactions s) →
  t ∈ rows s →
  rows (handle (ClickRow t) s) = rows s
  ∧ match details t with
    | None =>
        length (tbody (handle (ClickRow t) s)) = length (tbody s)
    | Some _ =>
        if decide (id t ∈ expandedRows s)
        then S (length (tbody (handle (ClickRow t) s))) = length (tbody s)
        else length (tbody (handle (ClickRow t) s)) = S (length (tbody s))
    end.
Proof.
  intros Hnodup Ht. split; [reflexivity|].
  pose proof (fragments_toggled (expandedRows s) t (rows s)
                (filtered_ids_NoDup _ _ Hnodup) Ht) as Hlen.
  change (tbody (handle (ClickRow t) s))
    with (flat_map (fragment (if decide (id t ∈ expandedRows s)
                              then expandedRows s ∖ {[ id t ]}
                              else {[ id t ]} ∪ expandedRows s)) (rows s)).
  unfold tbody. revert Hlen. unfold height, fragment.
  rewrite toggled_membership, (bool_decide_eq_true_2 (id t = id t)) by done.
  destruct (details t) as [d|]; [|simpl; lia].
  destruct (decide (id t ∈ expandedRows s)) as [Hin|Hout].
  - rewrite (bool_decide_eq_true_2 _ Hin). simpl. lia.
  - rewrite (bool_decide_eq_false_2 _ Hout). simpl. lia.
Qed.

(** The first row of the catalog, clicked in the initial state. *)
Lemma row_click_adds_or_removes_one_row_witness :
  ∃ t, mockTransactions !! 0%nat = Some t
    ∧ length (tbody init) = 3%nat
    ∧ length (tbody (handle (ClickRow t) init)) = S (length (tbody init)).
Proof.
  eexists. split; [reflexivity|]. split; [reflexivity|].
  edestruct (row_click_adds_or_removes_one_row init) as [_ Hlen];
    [by_evaluation|apply list_elem_of_here|exact Hlen].
Defined.

End Body.

(** ** The dialog's reachable states *)

Section DialogStates.
Import KPICards DrillDown.

Lemma dialog_Closed_falsy s :
  dialog s = Closed → truthy (selectedKPI s) = false.
Proof.
  unfold dialog. destruct (selectedKPI s) as [i|]; [|done].
  by destruct (truthy (Some i)).
Qed.

(** The cell holds [null] or the id of one of the cards. *)
Lemma reachable_selectedKPI s :
  reachable s →
  selectedKPI s = None ∨ ∃ kpi, kpi ∈ kpis ∧ selectedKPI s = Some (id kpi).
Proof.
  revert s. apply (rtc_ind_r _ init); [by left|].
  intros s1 s2 _ (ev & Hen & ->) IH.
  destruct ev as [kpi| | |]; simpl; [|by left|done|by left].
  right. by exists kpi.
Qed.

(** X10. Whenever the dialog is open in a reachable state, it is open on the id
    of exactly one card of [kpis], and the lookup for its heading finds
    that card: the heading shows the card's title and is never left
    without one. *)
Theorem report_title_is_found (s : Store) (i : string) :
  reachable s → dialog s = Open i →
  ∃ kpi, kpi ∈ kpis ∧ id kpi = i
         ∧ reportTitle s = Some (title kpi)
         ∧ ∀ kpi', kpi' ∈ kpis → id kpi' = i → kpi' = kpi.
Proof.
  intros Hs [Hsel _]%dialog_Open_truthy.
  destruct (reachable_selectedKPI s Hs) as [Hnone|(kpi & Hkpi & Hsome)];
    [congruence|].
  assert (i = id kpi) as -> by congruence.
  exists kpi. split; [done|]. split; [done|].
  unfold reportTitle. rewrite Hsel. clear Hsel Hsome Hs.
  revert Hkpi. unfold kpis. rewrite !elem_of_cons, elem_of_nil.
  intros [->|[->|[->|[->|[]]]]];
    (split; [reflexivity|]);
    intros kpi'; rewrite !elem_of_cons, elem_of_nil;
    intros [->|[->|[->|[->|[]]]]]; done.
Qed.

(** The dialog after a click on the third card. *)
Lemma report_title_is_found_witness :
  ∃ kpi, kpis !! 2%nat = Some kpi
    ∧ ∃ kpi', kpi' ∈ kpis ∧ id kpi' = "anomalies"
        ∧ reportTitle (handle (ClickCard kpi) init) = Some (title kpi').
Proof.
  eexists. split; [reflexivity|].
  match goal with
  | |- context [ClickCard ?k] =>
      destruct (report_title_is_found (handle (ClickCard k) init) "anomalies")
        as (kpi' & Hin & Hid & Htitle & _)
  end.
  - apply rtc_once. eexists (ClickCard _). split; [|reflexivity].
    simpl. do 2 apply list_elem_of_further. apply list_elem_of_here.
  - reflexivity.
  - exists kpi'. split_and!; [exact Hin|exact Hid|exact Htitle].
Defined.

(** X11. From the closed dialog the only possible action on the component is a
    click on a card, and it opens the dialog on that card's id. While the
    dialog is open on an id, an action closes it, leaves it open on the
    same id, or is a click on a card and opens it on that card's id: the
    dialog never shows an id that was not selected. *)
Theorem dialog_opens_only_by_selection (s : Store) (ev : Event) :
  enabled s ev →
  (dialog s = Closed →
   ∃ kpi, ev = ClickCard kpi ∧ kpi ∈ kpis
          ∧ dialog (handle ev s) = Open (id kpi))
  ∧ (∀ i, dialog s = Open i →
       dialog (handle ev s) = Closed
       ∨ dialog (handle ev s) = Open i
       ∨ ∃ kpi, ev = ClickCard kpi ∧ kpi ∈ kpis
                ∧ dialog (handle ev s) = Open (id kpi)).
Proof.
  intros Hen.
  assert (Hcard : ∀ kpi, kpi ∈ kpis →
            dialog (handle (ClickCard kpi) s) = Open (id kpi)).
  { intros kpi Hkpi.
    change (handle (ClickCard kpi) s) with {| selectedKPI := Some (id kpi) |}.
    unfold dialog. cbn [selectedKPI]. by rewrite kpis_truthy. }
  split.
  - intros Hclosed%dialog_Closed_falsy.
    destruct ev as [kpi| | |]; simpl in Hen; [|congruence..].
    exists kpi. split_and!; [done..|by apply Hcard].
  - intros i Hopen. destruct ev as [kpi| | |]; simpl in Hen.
    + right; right. exists kpi. split_and!; [done..|by apply Hcard].
    + by left.
    + right; left. exact Hopen.
    + by left.
Qed.

(** The first card, clicked while the dialog is closed. *)
Lemma dialog_opens_only_by_selection_witness :
  ∃ kpi, kpis !! 0%nat = Some kpi
    ∧ ∃ kpi', ClickCard kpi = ClickCard kpi'
        ∧ dialog (handle (ClickCard kpi) init) = Open (id kpi').
Proof.
  eexists. split; [reflexivity|].
  match goal with
  | |- context [ClickCard ?k] =>
      destruct (dialog_opens_only_by_selection init (ClickCard k))
        as [Hclosed _]
  end.
  - simpl. apply list_elem_of_here.
  - destruct (Hclosed eq_refl) as (kpi' & Hev & _ & Hopen).
    exists kpi'. split; [exact Hev|exact Hopen].
Defined.

End DialogStates.

(** ** The texts of the alert boxes *)

Section AlertTexts.
Import Alerts.






End AlertTexts.

(** ** Navigation between the views *)

Section Navigation.
Import App.

Lemma content_Overview view :
  DashboardContent view = OverviewPage ↔ view = "Overview".
Proof.
  unfold DashboardContent.
  destruct (String.eqb_spec view "Overview") as [->|Hne]; simpl; [done|].
  split; [done|]. by intros ->.
Qed.

Lemma reachable_selectedView s :
  reachable s → selectedView s ∈ id <$> menuItems.
Proof.
  revert s. apply (rtc_ind_r _ init); [by_evaluation|].
  intros s1 s2 _ (ev & Hen & ->) IH.
  destruct ev as [item|env|e]; [|exact IH..].
  apply (list_elem_of_fmap_2 id). exact Hen.
Qed.

(** X13. In every reachable state the selected view is the id of one of the six
    menu entries, exactly one entry of the sidebar is drawn as active and
    it is the entry of the selected view, and the content is the Overview
    page exactly when the selected view is "Overview" (a placeholder headed
    by the view's name otherwise). *)
Theorem one_menu_item_is_active (s : Store) :
  reachable s →
  selectedView s ∈ id <$> menuItems
  ∧ (∃ item, List.filter (isActive s) menuItems = [item]
             ∧ id item = selectedView s)
  ∧ (DashboardContent (selectedView s) = OverviewPage
     ↔ selectedView s = "Overview")
  ∧ (selectedView s ≠ "Overview" →
     DashboardContent (selectedView s)
     = Placeholder (selectedView s)
         ("Content for " ++ selectedView s ++ " view")).
Proof.
  intros Hs. pose proof (reachable_selectedView s Hs) as Hview.
  split_and!; [done| |apply content_Overview|].
  - destruct s as [view env o]. unfold isActive. simpl in *.
    revert Hview. rewrite !elem_of_cons, elem_of_nil.
    intros [->|[->|[->|[->|[->|[->|[]]]]]]]; eexists; by split.
  - intros Hne. unfold DashboardContent.
    by destruct (String.eqb_spec (selectedView s) "Overview").
Qed.

(** The state after a click on "Fleets". *)
Lemma one_menu_item_is_active_witness :
  ∃ item, menuItems !! 4%nat = Some item
    ∧ List.filter (isActive (handle (ClickMenuItem item) init)) menuItems
      = [item]
    ∧ DashboardContent (selectedView (handle (ClickMenuItem item) init))
      = Placeholder "Fleets" "Content for Fleets view".
Proof.
  eexists. split; [reflexivity|]. split; [reflexivity|].
  match goal with
  | |- context [ClickMenuItem ?i] =>
      destruct (one_menu_item_is_active (handle (ClickMenuItem i) init))
        as (_ & _ & _ & Hplace)
  end.
  - apply rtc_once. eexists (ClickMenuItem _). split; [|reflexivity].
    simpl. do 4 apply list_elem_of_further. apply list_elem_of_here.
  - apply Hplace. discriminate.
Defined.




End Navigation.
